(** * A shallow embedding of src/src/nodeServer.js (@hoajs/adapter)

    The module under verification is

<<
    export default function nodeServer (options) {
      return function nodeServerExtension (app) {
        const serverAdapter = createServerAdapter(request => app.fetch(request))
        const httpServer = createServer(serverAdapter)
        app.listen = function listen (...listenArgs) {
          return httpServer.listen(...listenArgs)
        }
      }
    }
>>

    JavaScript objects live in a store ([objs]) addressed by locations, so
    that the aliasing of [app] between the caller and the extension is
    explicit.  Host [http.Server] instances live in a second store
    ([servers]); a server handle is its index there.  Functions are
    first-class values: the three closures the module builds are
    constructors of [val] carrying the variables they capture; functions
    written by the user of the module are opaque ([VFun]).

    The module's environment is a parameter: the host's [server.listen]
    (class [Host]), which may throw, and the bodies of user functions
    (class [UserCode]).  The properties of the module are proved for every
    environment; [node_host] below describes Node's own [listen]. *)

From stdpp Require Import base gmap list strings.

Definition loc := nat.

(** JavaScript values that flow through the module. *)
Inductive val :=
| VUndefined
| VNull
| VBool (b : bool)
| VNum (z : Z)
| VStr (s : string)
| VObj (l : loc)                 (* reference to a plain object of the store *)
| VServer (id : nat)             (* an http.Server instance *)
| VNodeServerFn                  (* the exported [nodeServer] *)
| VExtensionFn (options : val)   (* [nodeServerExtension], closing over [options] *)
| VListenFn (httpServer : nat)   (* [listen], closing over [httpServer] *)
| VFun (id : nat).               (* a function of the module's user *)

(** A plain JavaScript object: its own data properties. *)
Abbreviation obj := (gmap string val).

(** Primitive values; every other value is an object (functions and
    [http.Server] instances included). *)
Definition is_primitive (v : val) : bool :=
  match v with
  | VUndefined | VNull | VBool _ | VNum _ | VStr _ => true
  | _ => false
  end.

(** [typeof v === 'function'] *)
Definition is_callable (v : val) : bool :=
  match v with
  | VNodeServerFn | VExtensionFn _ | VListenFn _ | VFun _ => true
  | _ => false
  end.

(** The host's [http.Server]: the private state of a server, the state of
    one fresh from [createServer], and [server.listen(...args)], which
    either throws synchronously ([None]) or returns [this] with the
    server's state updated. *)
Class Host := {
  net : Type;
  net_fresh : net;
  net_listen : net -> list val -> option net
}.

(** The connection handler given to [createServer]: the request adapter
    wrapping [request => app.fetch(request)]; [app] is captured by
    reference, [fetch] is looked up on it at request time. *)
Inductive handler :=
| HAdapterFetch (app : val).

Section Model.
Context `{Host}.

(** The state of one [http.Server]: its connection handler and the
    host's private state. *)
Record server := mk_server {
  srv_handler : handler;
  srv_net : net
}.

Record world := mk_world {
  objs : gmap loc obj;
  servers : list server
}.

(** Bodies of user functions: [user_call id this args w]. *)
Class UserCode := {
  user_call : nat -> val -> list val -> world -> option (val * world)
}.
Context {U : UserCode}.

(** ** Host capabilities (Node's [http] module) *)

(** [createServer(handler)]: a fresh server, not yet listening. *)
Definition createServer (h : handler) (w : world) : nat * world :=
  (length (servers w),
   mk_world (objs w) (servers w ++ [mk_server h net_fresh])).

(** [server.listen(...args)] on the server [srv]: the host decides; when
    it does not throw, the call returns [this], the server itself. *)
Definition host_listen (srv : nat) (args : list val) (w : world)
    : option (val * world) :=
  s ← servers w !! srv;
  n' ← net_listen (srv_net s) args;
  Some (VServer srv,
        mk_world (objs w) (<[srv := mk_server (srv_handler s) n']> (servers w))).

(** ** JavaScript property access *)

Definition get_prop (l : loc) (k : string) (w : world) : option val :=
  objs w !! l ≫= (.!! k).

(** [obj.k = v] on a data property of a plain object: the property is
    created or overwritten. *)
Definition set_prop (l : loc) (k : string) (v : val) (w : world)
    : option world :=
  match objs w !! l with
  | Some o => Some (mk_world (<[l := <[k := v]> o]> (objs w)) (servers w))
  | None => None
  end.

(** ** The module *)

(** [nodeServer(options)] *)
Definition nodeServer (options : val) : val := VExtensionFn options.

(** The body of [listen(...listenArgs)]:
    [return httpServer.listen(...listenArgs)]. *)
Definition listen (httpServer : nat) (listenArgs : list val) (w : world)
    : option (val * world) :=
  host_listen httpServer listenArgs w.

(** The body of [nodeServerExtension(app)]; [options] is in scope.
    Assigning [app.listen] on a primitive throws a TypeError in strict
    (module) code ([None]; the server created just before is then
    unreachable and never listens, so it is not kept).  On a function or
    a server instance the assignment succeeds; the model keeps no
    properties for such objects. *)
Definition nodeServerExtension (options : val) (app : val) (w : world)
    : option (val * world) :=
  let '(httpServer, w1) := createServer (HAdapterFetch app) w in
  match app with
  | VObj l =>
      w2 ← set_prop l "listen" (VListenFn httpServer) w1;
      Some (VUndefined, w2)
  | VServer _ | VNodeServerFn | VExtensionFn _ | VListenFn _ | VFun _ =>
      Some (VUndefined, w1)
  | _ => None
  end.

(** Calling a function value with a receiver and an argument list; a
    missing argument is [undefined].  Calling a non-function throws. *)
Definition call_this (f this : val) (args : list val) (w : world)
    : option (val * world) :=
  match f with
  | VNodeServerFn => Some (nodeServer (default VUndefined (head args)), w)
  | VExtensionFn options =>
      nodeServerExtension options (default VUndefined (head args)) w
  | VListenFn httpServer => listen httpServer args w
  | VFun id => user_call id this args w
  | _ => None
  end.

(** A plain call [f(...args)]. *)
Definition call (f : val) (args : list val) (w : world)
    : option (val * world) :=
  call_this f VUndefined args w.

(** [obj.m(...args)]: look the method up, then call it with [this = obj];
    a missing method is [undefined], and calling it throws. *)
Definition invoke (l : loc) (m : string) (args : list val) (w : world)
    : option (val * world) :=
  match get_prop l m w with
  | Some f => call_this f (VObj l) args w
  | None => None
  end.

(** A sequence of [app.listen(...)] calls, returning each call's result;
    the first throw ends the sequence. *)
Fixpoint run_listens (l : loc) (calls : list (list val)) (w : world)
    : option (list val * world) :=
  match calls with
  | [] => Some ([], w)
  | args :: rest =>
      '(r, w1) ← invoke l "listen" args w;
      '(rs, w2) ← run_listens l rest w1;
      Some (r :: rs, w2)
  end.

(** ** Request dispatch through the adapter *)

(** The method call [app.fetch(request)] made by the callback
    [request => app.fetch(request)]: the function found on [app] at that
    moment, the receiver [this], and the arguments. *)
Record fetch_call := mk_fetch_call {
  fc_fn : val;
  fc_this : val;
  fc_args : list val
}.

(** The callback given to [createServerAdapter]; [request] is the standard
    [Request] the adapter built from the connection.  [app.fetch] is read
    when the callback runs; a missing or non-callable [fetch] makes the
    call throw ([None]), and so does [undefined.fetch] or [null.fetch].
    Other primitives, functions and server instances have no [fetch] in
    this model. *)
Definition adapter_callback (app : val) (request : val) (w : world)
    : option fetch_call :=
  match app with
  | VObj l =>
      f ← get_prop l "fetch" w;
      if is_callable f then Some (mk_fetch_call f app [request]) else None
  | _ => None
  end.

(** A request reaching the host server [srv] is handed to its handler. *)
Definition serve_request (srv : nat) (request : val) (w : world)
    : option fetch_call :=
  s ← servers w !! srv;
  match srv_handler s with
  | HAdapterFetch app => adapter_callback app request w
  end.

(** The state after [nodeServerExtension(app)] on a plain object [app]. *)
Definition extended_world (l : loc) (o : obj) (w : world) : world :=
  mk_world (<[l := <["listen" := VListenFn (length (servers w))]> o]> (objs w))
           (servers w ++ [mk_server (HAdapterFetch (VObj l)) net_fresh]).

End Model.

Arguments world {_}.
Arguments server {_}.
Arguments UserCode {_}.

(** ** Node's [net.Server.prototype.listen]

    The synchronous part of Node's [listen]: [normalizeArgs] reads the
    first argument as the port (when it is not an object and not a pipe
    name) and a second string argument as the host; then
    - a server that already has a handle throws [ERR_SERVER_ALREADY_LISTEN];
    - no argument, [undefined], [null] or a callback first means port 0;
    - a number port outside 0..65535 throws [ERR_SOCKET_BAD_PORT];
    - a boolean first argument throws [ERR_INVALID_ARG_VALUE];
    - an accepted call with a non-empty host string starts a DNS lookup
      and gets its handle later ([Resolving]); without a host the handle
      is bound at once ([Bound]; a failing bind, reported later as an
      ['error'] event, is not modelled).
    Pipe names, numeric strings, option objects and handles as first
    argument, and a call while a lookup is pending, are not modelled:
    the instance throws there. *)
Inductive node_phase := Idle | Resolving | Bound.

Definition node_listen (p : node_phase) (args : list val) : option node_phase :=
  match p with
  | Bound => None
  | Resolving => None
  | Idle =>
      match args with
      | [] => Some Bound
      | a0 :: rest =>
          let accept :=
            match rest with
            | VStr s :: _ => if bool_decide (s = "") then Some Bound else Some Resolving
            | _ => Some Bound
            end in
          match a0 with
          | VUndefined | VNull | VNodeServerFn | VExtensionFn _ | VListenFn _
          | VFun _ => accept
          | VNum z => if bool_decide (0 <= z <= 65535)%Z then accept else None
          | VBool _ => None
          | VStr _ | VObj _ | VServer _ => None
          end
      end
  end.

#[global] Instance node_host : Host :=
  {| net := node_phase; net_fresh := Idle; net_listen := node_listen |}.

(** User code for the examples: every user function returns [undefined]
    and changes nothing. *)
#[global] Instance inert_user_code : UserCode :=
  {| user_call := fun _ _ _ w => Some (VUndefined, w) |}.

(** ** Small examples *)

Definition app0 : obj := <["fetch" := VFun 0]> (<["listen" := VNum 1]> ∅).
Definition w0 : world := mk_world {[ 7 := app0 ]} [].

Example extension_w0 :
  call (nodeServer (VStr "opts")) [VObj 7] w0 =
  Some (VUndefined,
        mk_world {[ 7 := <["listen" := VListenFn 0]> app0 ]}
                 [@mk_server node_host (HAdapterFetch (VObj 7)) Idle]).
Proof. reflexivity. Qed.

Example listen_twice_w0 :
  (w1 ← call (nodeServer VUndefined) [VObj 7] w0 ≫= (λ '(_, w), Some w);
   '(r, w2) ← invoke 7 "listen" [VNum 3000] w1;
   Some (r, invoke 7 "listen" [VNum 3000] w2)) = Some (VServer 0, None).
Proof. reflexivity. Qed.

(** ** Properties of the module, for every host and every user code *)

Section Proofs.
Context `{Host} {U : UserCode}.

Lemma nodeServerExtension_obj options l o w :
  objs w !! l = Some o ->
  nodeServerExtension options (VObj l) w = Some (VUndefined, extended_world l o w).
Proof. intros Hl. unfold nodeServerExtension, set_prop; simpl. by rewrite Hl. Qed.

Lemma invoke_listen l srv args w :
  get_prop l "listen" w = Some (VListenFn srv) ->
  invoke l "listen" args w = host_listen srv args w.
Proof. intros Hg. unfold invoke. by rewrite Hg. Qed.

Lemma extended_listen l o w :
  objs w !! l = Some o ->
  get_prop l "listen" (extended_world l o w) = Some (VListenFn (length (servers w))).
Proof.
  intros _. unfold get_prop, extended_world; simpl.
  by rewrite lookup_insert_eq; simpl; rewrite lookup_insert_eq.
Qed.

Lemma extended_new_server l o w :
  servers (extended_world l o w) !! length (servers w) =
  Some (mk_server (HAdapterFetch (VObj l)) net_fresh).
Proof.
  unfold extended_world; simpl.
  rewrite lookup_app_r by lia. by rewrite Nat.sub_diag.
Qed.

Lemma extended_objs_lookup l o w :
  objs (extended_world l o w) !! l = Some (<["listen" := VListenFn (length (servers w))]> o).
Proof. unfold extended_world; simpl. by rewrite lookup_insert_eq. Qed.

Lemma extended_servers_length l o w :
  length (servers (extended_world l o w)) = S (length (servers w)).
Proof. unfold extended_world; simpl. rewrite length_app. simpl. lia. Qed.

Lemma extended_servers_prefix l o w i :
  i < length (servers w) ->
  servers (extended_world l o w) !! i = servers w !! i.
Proof. intros Hi. unfold extended_world; simpl. by apply lookup_app_l. Qed.

(** What a [server.listen] that did not throw changed: only the private
    state of the server it was called on. *)
Lemma host_listen_frame srv args w r w1 :
  host_listen srv args w = Some (r, w1) ->
  r = VServer srv /\
  objs w1 = objs w /\
  length (servers w1) = length (servers w) /\
  (forall i, i <> srv -> servers w1 !! i = servers w !! i) /\
  (forall i, srv_handler <$> servers w1 !! i = srv_handler <$> servers w !! i).
Proof.
  unfold host_listen.
  destruct (servers w !! srv) as [s|] eqn:Hs; simpl; [|discriminate].
  destruct (net_listen (srv_net s) args) as [n'|]; simpl; [|discriminate].
  intros Heq. injection Heq as <- <-. cbn [objs servers].
  split; [done|split; [done|split; [|split]]].
  - apply length_insert.
  - intros i Hi. by apply list_lookup_insert_ne.
  - intros i. destruct (decide (i = srv)) as [->|Hi].
    + rewrite list_lookup_insert_eq; [by rewrite Hs|].
      by apply lookup_lt_Some in Hs.
    + by rewrite list_lookup_insert_ne.
Qed.

(** A run of [app.listen] calls that did not throw: every call returned
    the server handle, and only that server's private state changed. *)
Lemma run_listens_frame l srv calls w rs w' :
  get_prop l "listen" w = Some (VListenFn srv) ->
  run_listens l calls w = Some (rs, w') ->
  rs = map (λ _, VServer srv) calls /\
  objs w' = objs w /\
  length (servers w') = length (servers w) /\
  (forall i, i <> srv -> servers w' !! i = servers w !! i) /\
  (forall i, srv_handler <$> servers w' !! i = srv_handler <$> servers w !! i).
Proof.
  revert w rs. induction calls as [|args calls IH]; intros w rs Hg Hrun; simpl in Hrun.
  - injection Hrun as <- <-. done.
  - rewrite (invoke_listen _ _ _ _ Hg) in Hrun.
    destruct (host_listen srv args w) as [[r w1]|] eqn:Hh; simpl in Hrun; [|discriminate].
    destruct (run_listens l calls w1) as [[rs' w2]|] eqn:Hr; simpl in Hrun; [|discriminate].
    injection Hrun as <- <-.
    destruct (host_listen_frame _ _ _ _ _ Hh) as (-> & Ho & Hlen & Hne & Hhd).
    assert (Hg1 : get_prop l "listen" w1 = Some (VListenFn srv)).
    { unfold get_prop. by rewrite Ho. }
    destruct (IH w1 rs' Hg1 Hr) as (-> & Ho' & Hlen' & Hne' & Hhd').
    split; [done|split; [congruence|split; [congruence|split]]].
    + intros i Hi. by rewrite Hne', Hne.
    + intros i. by rewrite Hhd', Hhd.
Qed.

(** Request dispatch depends only on the objects and the handlers. *)
Lemma serve_request_ext srv request w w' :
  objs w' = objs w ->
  srv_handler <$> servers w' !! srv = srv_handler <$> servers w !! srv ->
  serve_request srv request w' = serve_request srv request w.
Proof.
  intros Ho Hh. unfold serve_request.
  destruct (servers w' !! srv) as [[h' n']|], (servers w !! srv) as [[h n]|];
    simpl in *; try discriminate; [|done].
  injection Hh as ->. destruct h as [app]. simpl.
  unfold adapter_callback, get_prop. by rewrite Ho.
Qed.

End Proofs.

(** ** Transport binder *)

Section Binder.
Context `{Host} {U : UserCode}.

(** C1 (as the code behaves): the installed [app.listen] hands every
    argument list, unchanged, to the [listen] of the one server created
    when the extension ran, and its outcome is exactly that call's
    outcome: when the host's [listen] returns, the result is that server's
    handle, the same for every call on the app; when the host's [listen]
    throws synchronously, [app.listen] throws too. *)
Theorem listen_forwards_to_single_server options l o w :
  objs w !! l = Some o ->
  call (nodeServer options) [VObj l] w = Some (VUndefined, extended_world l o w) /\
  get_prop l "listen" (extended_world l o w) = Some (VListenFn (length (servers w))) /\
  forall args w',
    get_prop l "listen" w' = Some (VListenFn (length (servers w))) ->
    invoke l "listen" args w' = host_listen (length (servers w)) args w' /\
    (forall r w'', invoke l "listen" args w' = Some (r, w'') ->
       r = VServer (length (servers w))).
Proof.
  intros Hl. split; [simpl; by apply nodeServerExtension_obj|split].
  - by apply extended_listen.
  - intros args w' Hg. rewrite (invoke_listen _ _ _ _ Hg). split; [done|].
    intros r w'' Hh. by destruct (host_listen_frame _ _ _ _ _ Hh).
Qed.

(** C2: [nodeServer(options)] yields the extension; applied to an app
    object the extension installs a [listen] function on it and returns
    [undefined]; and the extension behaves identically whatever [options]
    was given (the closure never reads it). *)
Theorem nodeServer_attach_shape options l o w :
  objs w !! l = Some o ->
  call VNodeServerFn [options] w = Some (nodeServer options, w) /\
  (exists w1 srv,
     call (nodeServer options) [VObj l] w = Some (VUndefined, w1) /\
     get_prop l "listen" w1 = Some (VListenFn srv)) /\
  (forall options' args w',
     call (nodeServer options) args w' = call (nodeServer options') args w').
Proof.
  intros Hl. split; [done|split].
  - exists (extended_world l o w), (length (servers w)). split.
    + simpl. by apply nodeServerExtension_obj.
    + by apply extended_listen.
  - intros options' args w'. reflexivity.
Qed.

(** C3: one application of the extension to an app creates exactly one
    host server, whose handler is the request adapter around the app's
    [fetch]; the installed [listen] refers to that server, and every later
    [app.listen(...)] call is that server's [listen] with the same
    arguments, whatever the host does with it; a call that returns leaves
    every other server, every handler and the object store untouched. *)
Theorem one_server_per_extension options l o w :
  objs w !! l = Some o ->
  exists w1,
    call (nodeServer options) [VObj l] w = Some (VUndefined, w1) /\
    servers w1 = servers w ++ [mk_server (HAdapterFetch (VObj l)) net_fresh] /\
    get_prop l "listen" w1 = Some (VListenFn (length (servers w))) /\
    forall args w',
      get_prop l "listen" w' = Some (VListenFn (length (servers w))) ->
      invoke l "listen" args w' = host_listen (length (servers w)) args w' /\
      forall r w'', invoke l "listen" args w' = Some (r, w'') ->
        r = VServer (length (servers w)) /\
        objs w'' = objs w' /\
        length (servers w'') = length (servers w') /\
        (forall i, i <> length (servers w) -> servers w'' !! i = servers w' !! i) /\
        (forall i, srv_handler <$> servers w'' !! i = srv_handler <$> servers w' !! i).
Proof.
  intros Hl. exists (extended_world l o w). split; [|split; [|split]].
  - simpl. by apply nodeServerExtension_obj.
  - done.
  - by apply extended_listen.
  - intros args w' Hg. rewrite (invoke_listen _ _ _ _ Hg). split; [done|].
    intros r w'' Hh. exact (host_listen_frame _ _ _ _ _ Hh).
Qed.

(** C10: applying the extension to an app changes only the app's
    [listen] property: every other property of the app, and every other
    object, is left as it was, no object is created or removed, and a
    [listen] the app already had is overwritten unconditionally by the
    function bound to the freshly created server. *)
Theorem extension_frame options l o w :
  objs w !! l = Some o ->
  exists w1,
    call (nodeServer options) [VObj l] w = Some (VUndefined, w1) /\
    get_prop l "listen" w1 = Some (VListenFn (length (servers w))) /\
    (forall l' k, (l', k) <> (l, "listen") -> get_prop l' k w1 = get_prop l' k w) /\
    dom (objs w1) = dom (objs w).
Proof.
  intros Hl. exists (extended_world l o w). split; [|split; [|split]].
  - simpl. by apply nodeServerExtension_obj.
  - by apply extended_listen.
  - intros l' k Hne. unfold get_prop, extended_world; cbn [objs].
    destruct (decide (l' = l)) as [->|Hl'].
    + rewrite lookup_insert_eq, Hl. simpl.
      rewrite lookup_insert_ne; [done|]. intros <-. by apply Hne.
    + by rewrite lookup_insert_ne by congruence.
  - unfold extended_world; cbn [objs]. rewrite dom_insert_L.
    apply elem_of_dom_2 in Hl. set_solver.
Qed.

End Binder.

(** ** Further properties of the module *)

Section Extension.
Context `{Host} {U : UserCode}.

(** [nodeServerExtension] applied to a primitive ([undefined], as when it
    gets no argument, [null], a boolean, a number or a string) throws the
    TypeError of the assignment [app.listen = ...]. *)
Theorem extension_primitive_throws options (app : val) w :
  is_primitive app = true ->
  call (nodeServer options) [app] w = None.
Proof.
  intros Hp. simpl. unfold nodeServerExtension; simpl.
  by destruct app.
Qed.

(** The README's usage [app.extend(nodeServer())]: with no options the
    factory still yields the extension, and arguments after the app are
    ignored; the app gains [listen] bound to a fresh server. *)
Theorem nodeServer_without_options l o w (extra : list val) :
  objs w !! l = Some o ->
  exists f,
    call VNodeServerFn [] w = Some (f, w) /\
    call f (VObj l :: extra) w = Some (VUndefined, extended_world l o w).
Proof.
  intros Hl. exists (nodeServer VUndefined). split; [done|].
  simpl. by apply nodeServerExtension_obj.
Qed.

(** The adapter callback reads [app.fetch] when a request arrives, not when
    the extension runs: after the extension, for whatever value is then
    assigned to [app.fetch], a request reaching the new server calls that
    value with [this] bound to [app] and the request as sole argument when
    it is a function, and throws when it is not. *)
Theorem request_calls_current_fetch options l o w (f request : val) :
  objs w !! l = Some o ->
  call (nodeServer options) [VObj l] w = Some (VUndefined, extended_world l o w) /\
  exists w2,
    set_prop l "fetch" f (extended_world l o w) = Some w2 /\
    serve_request (length (servers w)) request w2 =
      if is_callable f then Some (mk_fetch_call f (VObj l) [request]) else None.
Proof.
  intros Hl. split; [simpl; by apply nodeServerExtension_obj|].
  unfold set_prop. rewrite extended_objs_lookup. eexists. split; [done|].
  unfold serve_request. cbn [servers].
  rewrite (extended_new_server l o w). simpl.
  unfold get_prop; simpl. rewrite lookup_insert_eq. simpl.
  by rewrite lookup_insert_eq.
Qed.

(** The extension never reads [app.fetch]: it succeeds on an app that has
    no [fetch], and the failure only surfaces when a request reaches the
    server, as the throw of the callback's [app.fetch(request)]. *)
Theorem missing_fetch_fails_at_request options l o w (request : val) :
  objs w !! l = Some o ->
  o !! "fetch" = None ->
  call (nodeServer options) [VObj l] w = Some (VUndefined, extended_world l o w) /\
  serve_request (length (servers w)) request (extended_world l o w) = None.
Proof.
  intros Hl Hf. split; [simpl; by apply nodeServerExtension_obj|].
  unfold serve_request. rewrite extended_new_server. simpl.
  unfold adapter_callback, get_prop. rewrite extended_objs_lookup. simpl.
  rewrite lookup_insert_ne; [by rewrite Hf | done].
Qed.

(** [app.listen(...)] calls never change how requests are served: after
    any sequence of them, every server dispatches a request exactly as
    before (the calls touch neither the objects nor any server's
    handler). *)
Theorem listens_preserve_dispatch l srv (calls : list (list val)) w rs w' :
  get_prop l "listen" w = Some (VListenFn srv) ->
  run_listens l calls w = Some (rs, w') ->
  forall srv' request, serve_request srv' request w' = serve_request srv' request w.
Proof.
  intros Hg Hrun srv' request.
  destruct (run_listens_frame _ _ _ _ _ _ Hg Hrun) as (_ & Ho & _ & _ & Hhd).
  by apply serve_request_ext.
Qed.

(** Applying the extension a second time to the same app creates a second
    server and rebinds [app.listen] to it: every later [app.listen] call is
    the second server's [listen], and a run of such calls that does not
    throw returns the second server's handle each time and leaves the
    first server exactly as it was created. *)
Theorem reextension_targets_new_server options options' l o w :
  objs w !! l = Some o ->
  exists w1 w2,
    call (nodeServer options) [VObj l] w = Some (VUndefined, w1) /\
    call (nodeServer options') [VObj l] w1 = Some (VUndefined, w2) /\
    length (servers w2) = length (servers w) + 2 /\
    get_prop l "listen" w2 = Some (VListenFn (S (length (servers w)))) /\
    (forall args, invoke l "listen" args w2 = host_listen (S (length (servers w))) args w2) /\
    forall calls rs w3,
      run_listens l calls w2 = Some (rs, w3) ->
      rs = map (λ _, VServer (S (length (servers w)))) calls /\
      servers w3 !! length (servers w) = Some (mk_server (HAdapterFetch (VObj l)) net_fresh).
Proof.
  intros Hl.
  set (w1 := extended_world l o w).
  set (o1 := <["listen" := VListenFn (length (servers w))]> o).
  assert (Hl1 : objs w1 !! l = Some o1) by apply extended_objs_lookup.
  assert (Hlen1 : length (servers w1) = S (length (servers w)))
    by apply extended_servers_length.
  set (w2 := extended_world l o1 w1).
  assert (Hlisten : get_prop l "listen" w2 = Some (VListenFn (S (length (servers w))))).
  { rewrite <- Hlen1. by apply extended_listen. }
  exists w1, w2. split; [|split; [|split; [|split; [|split]]]].
  - simpl. by apply nodeServerExtension_obj.
  - simpl. by apply nodeServerExtension_obj.
  - unfold w2. rewrite extended_servers_length, Hlen1. lia.
  - exact Hlisten.
  - intros args. by apply invoke_listen.
  - intros calls rs w3 Hrun.
    destruct (run_listens_frame _ _ _ _ _ _ Hlisten Hrun) as (-> & _ & _ & Hne & _).
    split; [done|].
    rewrite Hne by lia. unfold w2. rewrite extended_servers_prefix by lia.
    apply extended_new_server.
Qed.

(** Two apps extended one after the other get distinct servers: each
    app's [listen] is bound to its own server, and a run of [listen] calls
    on the first app that does not throw leaves the second app's server
    exactly as it was created. *)
Theorem two_apps_isolated options l1 l2 o1 o2 w :
  l1 <> l2 ->
  objs w !! l1 = Some o1 ->
  objs w !! l2 = Some o2 ->
  exists w1 w2,
    call (nodeServer options) [VObj l1] w = Some (VUndefined, w1) /\
    call (nodeServer options) [VObj l2] w1 = Some (VUndefined, w2) /\
    get_prop l1 "listen" w2 = Some (VListenFn (length (servers w))) /\
    get_prop l2 "listen" w2 = Some (VListenFn (S (length (servers w)))) /\
    forall calls rs w3,
      run_listens l1 calls w2 = Some (rs, w3) ->
      rs = map (λ _, VServer (length (servers w))) calls /\
      servers w3 !! S (length (servers w)) =
        Some (mk_server (HAdapterFetch (VObj l2)) net_fresh).
Proof.
  intros Hne H1 H2.
  set (w1 := extended_world l1 o1 w).
  assert (H2' : objs w1 !! l2 = Some o2).
  { unfold w1, extended_world; simpl. by rewrite lookup_insert_ne by congruence. }
  assert (Hlen1 : length (servers w1) = S (length (servers w)))
    by apply extended_servers_length.
  set (w2 := extended_world l2 o2 w1).
  assert (Hlisten1 : get_prop l1 "listen" w2 = Some (VListenFn (length (servers w)))).
  { unfold get_prop, w2, extended_world. cbn [objs].
    rewrite lookup_insert_ne by congruence. by apply extended_listen. }
  exists w1, w2. split; [|split; [|split; [|split]]].
  - simpl. by apply nodeServerExtension_obj.
  - simpl. by apply nodeServerExtension_obj.
  - exact Hlisten1.
  - rewrite <- Hlen1. by apply extended_listen.
  - intros calls rs w3 Hrun.
    destruct (run_listens_frame _ _ _ _ _ _ Hlisten1 Hrun) as (-> & _ & _ & Hn & _).
    split; [done|].
    rewrite Hn by lia. unfold w2. rewrite <- Hlen1. apply extended_new_server.
Qed.

End Extension.

(** ** Witnesses and counterexamples on Node's [listen] *)

Lemma extension_w0_eq :
  call (nodeServer VUndefined) [VObj 7] w0 =
  Some (VUndefined, extended_world 7 app0 w0).
Proof. reflexivity. Qed.

(** C1 as first stated fails on Node: [app.listen(-1)] throws
    [ERR_SOCKET_BAD_PORT] instead of returning the server, and a second
    [app.listen(3000)] after a first one bound the server throws
    [ERR_SERVER_ALREADY_LISTEN]. *)
Lemma listen_not_always_server_handle :
  call (nodeServer VUndefined) [VObj 7] w0 =
    Some (VUndefined, extended_world 7 app0 w0) /\
  invoke 7 "listen" [VNum (-1)] (extended_world 7 app0 w0) = None /\
  exists w1,
    invoke 7 "listen" [VNum 3000] (extended_world 7 app0 w0) = Some (VServer 0, w1) /\
    invoke 7 "listen" [VNum 3000] w1 = None.
Proof.
  split; [reflexivity|split; [reflexivity|]].
  eexists. split; reflexivity.
Qed.

Lemma listen_forwards_to_single_server_witness :
  exists w1,
    invoke 7 "listen" [VNum 0; VStr "localhost"] (extended_world 7 app0 w0) =
      Some (VServer 0, w1).
Proof.
  destruct (listen_forwards_to_single_server VUndefined 7 app0 w0 eq_refl)
    as (_ & Hg & Hf).
  destruct (Hf [VNum 0; VStr "localhost"] _ Hg) as [-> _].
  eexists. reflexivity.
Defined.

Lemma nodeServer_attach_shape_witness :
  objs w0 !! 7 = Some app0 /\
  call (nodeServer (VStr "a")) [VObj 7] w0 = call (nodeServer VNull) [VObj 7] w0.
Proof.
  split; [reflexivity|].
  destruct (nodeServer_attach_shape (VStr "a") 7 app0 w0 eq_refl) as (_ & _ & Hni).
  apply Hni.
Defined.

Lemma one_server_per_extension_witness :
  exists w1 w2,
    call (nodeServer VUndefined) [VObj 7] w0 = Some (VUndefined, w1) /\
    servers w1 = [@mk_server node_host (HAdapterFetch (VObj 7)) Idle] /\
    invoke 7 "listen" [VNum 8080] w1 = Some (VServer 0, w2) /\
    servers w2 !! 0 = Some (@mk_server node_host (HAdapterFetch (VObj 7)) Bound).
Proof.
  destruct (one_server_per_extension VUndefined 7 app0 w0 eq_refl)
    as (w1 & Hcall & Hsrv & Hg & Hl).
  rewrite extension_w0_eq in Hcall. injection Hcall as <-.
  destruct (Hl [VNum 8080] _ Hg) as [Heq _].
  eexists (extended_world 7 app0 w0), _. split; [reflexivity|split; [exact Hsrv|]].
  rewrite Heq. split; reflexivity.
Defined.

Lemma extension_frame_witness :
  exists w1,
    call (nodeServer VUndefined) [VObj 7] w0 = Some (VUndefined, w1) /\
    get_prop 7 "listen" w1 = Some (VListenFn 0) /\
    get_prop 7 "fetch" w1 = Some (VFun 0).
Proof.
  destruct (extension_frame VUndefined 7 app0 w0 eq_refl)
    as (w1 & Hcall & Hlisten & Hframe & _).
  exists w1. split; [exact Hcall|split; [exact Hlisten|]].
  rewrite (Hframe 7 "fetch"); [reflexivity|discriminate].
Defined.

Lemma extension_primitive_throws_witness :
  call (nodeServer VUndefined) [VNull] w0 = None /\
  call (nodeServer VUndefined) [VNum 3000] w0 = None.
Proof.
  split; apply extension_primitive_throws; reflexivity.
Defined.

Lemma nodeServer_without_options_witness :
  exists f,
    call VNodeServerFn [] w0 = Some (f, w0) /\
    call f [VObj 7; VNum 1] w0 = Some (VUndefined, extended_world 7 app0 w0).
Proof. exact (nodeServer_without_options 7 app0 w0 [VNum 1] eq_refl). Defined.

Lemma request_calls_current_fetch_witness :
  (exists w2,
    set_prop 7 "fetch" (VFun 3) (extended_world 7 app0 w0) = Some w2 /\
    serve_request 0 (VStr "GET /") w2 =
      Some (mk_fetch_call (VFun 3) (VObj 7) [VStr "GET /"])) /\
  (exists w2,
    set_prop 7 "fetch" VUndefined (extended_world 7 app0 w0) = Some w2 /\
    serve_request 0 (VStr "GET /") w2 = None).
Proof.
  split.
  - exact (proj2 (request_calls_current_fetch VUndefined 7 app0 w0
                    (VFun 3) (VStr "GET /") eq_refl)).
  - exact (proj2 (request_calls_current_fetch VUndefined 7 app0 w0
                    VUndefined (VStr "GET /") eq_refl)).
Defined.

Lemma missing_fetch_fails_at_request_witness :
  call (nodeServer VUndefined) [VObj 3] (mk_world {[3 := ∅]} []) =
    Some (VUndefined, extended_world 3 ∅ (mk_world {[3 := ∅]} [])) /\
  serve_request 0 (VStr "GET /") (extended_world 3 ∅ (mk_world {[3 := ∅]} [])) = None.
Proof.
  exact (missing_fetch_fails_at_request VUndefined 3 ∅ (mk_world {[3 := ∅]} [])
           (VStr "GET /") eq_refl eq_refl).
Defined.

Lemma listens_preserve_dispatch_witness :
  serve_request 0 (VStr "GET /")
    (mk_world (objs (extended_world 7 app0 w0))
       [@mk_server node_host (HAdapterFetch (VObj 7)) Bound]) =
  serve_request 0 (VStr "GET /") (extended_world 7 app0 w0).
Proof.
  apply (listens_preserve_dispatch 7 0 [[VNum 3000]] (extended_world 7 app0 w0)
           [VServer 0]).
  - reflexivity.
  - reflexivity.
Defined.

Lemma reextension_targets_new_server_witness :
  exists w2 w3,
    call (nodeServer VUndefined) [VObj 7] (extended_world 7 app0 w0) =
      Some (VUndefined, w2) /\
    run_listens 7 [[VNum 80]] w2 = Some ([VServer 1], w3) /\
    servers w3 !! 0 = Some (@mk_server node_host (HAdapterFetch (VObj 7)) Idle).
Proof.
  destruct (reextension_targets_new_server VUndefined VUndefined 7 app0 w0 eq_refl)
    as (w1 & w2 & H1 & H2 & _ & _ & _ & Hrun).
  rewrite extension_w0_eq in H1. injection H1 as <-.
  exists w2.
  assert (Hr : exists w3, run_listens 7 [[VNum 80]] w2 = Some ([VServer 1], w3)).
  { revert H2. unfold call, call_this, nodeServer. cbn [head default].
    rewrite (nodeServerExtension_obj _ 7 (<["listen" := VListenFn 0]> app0)) by reflexivity.
    intros H2. injection H2 as <-. eexists. reflexivity. }
  destruct Hr as [w3 Hr]. exists w3.
  split; [exact H2|split; [exact Hr|]].
  exact (proj2 (Hrun _ _ _ Hr)).
Defined.

Lemma two_apps_isolated_witness :
  exists w1 w2 w3,
    call (nodeServer VUndefined) [VObj 1] (mk_world {[1 := ∅; 2 := ∅]} []) =
      Some (VUndefined, w1) /\
    call (nodeServer VUndefined) [VObj 2] w1 = Some (VUndefined, w2) /\
    run_listens 1 [[VNum 80]] w2 = Some ([VServer 0], w3) /\
    servers w3 !! 1 = Some (@mk_server node_host (HAdapterFetch (VObj 2)) Idle).
Proof.
  destruct (two_apps_isolated VUndefined 1 2 ∅ ∅ (mk_world {[1 := ∅; 2 := ∅]} [])
              ltac:(discriminate) eq_refl eq_refl)
    as (w1 & w2 & H1 & H2 & _ & _ & Hrun).
  assert (Hr : exists w3, run_listens 1 [[VNum 80]] w2 = Some ([VServer 0], w3)).
  { revert H2. revert H1. unfold call, call_this, nodeServer. cbn [head default].
    rewrite (nodeServerExtension_obj _ 1 ∅) by reflexivity.
    intros H1. injection H1 as <-.
    rewrite (nodeServerExtension_obj _ 2 ∅) by reflexivity.
    intros H2. injection H2 as <-. eexists. reflexivity. }
  destruct Hr as [w3 Hr]. exists w1, w2, w3.
  split; [exact H1|split; [exact H2|split; [exact Hr|]]].
  exact (proj2 (Hrun _ _ _ Hr)).
Defined.
